(** * Real-estate backend: users, bookings, favourites and residencies

    A shallow embedding of the request handlers of [userCntrl.js] and
    [resdCntrl.js] over a model of the document store described by
    [schema.prisma], followed by the properties of the booking, favourites,
    registration and residency operations. *)

From stdpp Require Import gmap strings list fin_maps sorting.

Open Scope Z_scope.

(** ** JSON values

    [bookedVisits] is declared [Json[]] and [facilities] is declared [Json].
    The elements of a [Json[]] column and the value of a [Json] column are
    JSON values other than [null]; inside an object or an array a position
    may hold [null], which is [None] here.  Numbers are never inspected by
    the handlers and are carried as integers. *)

#[warnings="-register-all"]
Inductive JsonValue : Type :=
| JString (s : string)
| JNumber (n : Z)
| JBoolean (b : bool)
| JObject (fields : gmap string (option JsonValue))
| JArray (items : list (option JsonValue)).

(** A JSON value as a request body carries it: [None] is [null]. *)
Definition Json : Type := option JsonValue.

(** ** Data model ([schema.prisma]) *)

(** An [ObjectId] generated by [@default(auto())] is modelled by its rank in
    generation order. *)
Definition ObjectId : Type := nat.
Bind Scope nat_scope with ObjectId.

(** [model User].  The [email] column is [@unique] and is the key under which
    every handler reaches a user, so the collection is a finite map from
    email to the remaining columns. *)
Module User.
Record t : Type := mk {
  id : ObjectId;
  name : option string;
  image : option string;
  bookedVisits : list JsonValue;
  favResidenciesID : list ObjectId
}.
End User.

(** [model Residency]. *)
Module Residency.
Record t : Type := mk {
  id : ObjectId;
  title : string;
  description : string;
  price : Z;
  address : string;
  city : string;
  country : string;
  image : string;
  facilities : JsonValue;
  userEmail : string;
  createdAt : Z;
  updatedAt : Z
}.
End Residency.

(** The database: both collections and the next identifier to hand out.
    [residencies] is kept in insertion order. *)
Record Store : Type := mkStore {
  users : gmap string User.t;
  residencies : list Residency.t;
  next_oid : ObjectId
}.

Definition empty_store : Store :=
  {| users := ∅; residencies := []; next_oid := 0%nat |}.

(** ** Failures *)

(** What the runtime or the client raises on its own: reading a property of
    [null], or a known request error of the client with its [code]. *)
Inductive Fault : Type :=
| NullRead (prop : string)
| PrismaKnown (code : string).

(** The text of an error: either written out in a handler, or the text the
    runtime attached to a fault. *)
Inductive Message : Type :=
| Literal (s : string)
| FaultText (f : Fault).

(** A JavaScript exception value: a fault as raised, or [new Error(m)]. *)
Inductive Exn : Type :=
| Raised (f : Fault)
| Error (m : Message).

(** [err.message] *)
Definition message (err : Exn) : Message :=
  match err with
  | Raised f => FaultText f
  | Error m => m
  end.

(** [err.code]; [None] is [undefined]. *)
Definition code (err : Exn) : option string :=
  match err with
  | Raised (PrismaKnown c) => Some c
  | _ => None
  end.

(** [err.code === c] *)
Definition code_is (c : string) (err : Exn) : bool :=
  match code err with
  | Some c' => String.eqb c' c
  | None => false
  end.

(** ** Responses *)

Inductive Body : Type :=
| Text (s : string)
| MessageOnly (msg : string)
| MessageUser (msg : string) (email : string) (user : User.t)
| MessageResidency (msg : string) (residency : Residency.t)
| MessageError (msg : string) (error : Message)
| ResidencyList (rs : list Residency.t)
| ResidencyOrNull (r : option Residency.t)
| BookingsOrNull (b : option (list JsonValue))
| FavoritesOrNull (f : option (list ObjectId)).

Record Response : Type := mkResponse { status : Z; body : Body }.

(** [res.send(b)] leaves the status at its default. *)
Definition send (b : Body) : Response := {| status := 200; body := b |}.
(** [res.status(st).send(b)] and [res.status(st).json(b)]. *)
Definition status_send (st : Z) (b : Body) : Response :=
  {| status := st; body := b |}.

(** What a wrapped handler leaves behind: a response, or an exception handed
    to the framework's error reporting. *)
Inductive Outcome : Type :=
| Responded (r : Response)
| Failed (err : Exn).

(** ** Database computations

    A computation reads and writes the store and either returns a value or
    throws. *)
Definition Prisma (A : Type) : Type := Store → (Exn + A) * Store.

Definition ret {A} (a : A) : Prisma A := λ s, (inr a, s).
Definition throw {A} (err : Exn) : Prisma A := λ s, (inl err, s).
Definition bind {A B} (m : Prisma A) (k : A → Prisma B) : Prisma B :=
  λ s, match m s with
       | (inr a, s') => k a s'
       | (inl err, s') => (inl err, s')
       end.
(** [try { m } catch (err) { h err }] *)
Definition try_catch {A} (m : Prisma A) (h : Exn → Prisma A) : Prisma A :=
  λ s, match m s with
       | (inr a, s') => (inr a, s')
       | (inl err, s') => h err s'
       end.

Notation "'let*' x := m 'in' k" := (bind m (λ x, k))
  (at level 10, x name, m at level 100, k at level 200, only parsing).

(** [asyncHandler(fn)]: a rejection of [fn] goes to the framework. *)
Definition asyncHandler (fn : Prisma Response) (s : Store) : Outcome * Store :=
  match fn s with
  | (inr r, s') => (Responded r, s')
  | (inl err, s') => (Failed err, s')
  end.

(** [o.prop] where [o] may be [null]. *)
Definition read {A B} (o : option A) (prop : string) (get : A → B) : Prisma B :=
  match o with
  | Some a => ret (get a)
  | None => throw (Raised (NullRead prop))
  end.

(** ** Array methods used by the handlers *)

(** [l.some(p)] *)
Definition some {A} (p : A → bool) (l : list A) : bool := existsb p l.

(** [l.findIndex(p)]: the first index whose element satisfies [p], or [-1]. *)
Fixpoint findIndex_from {A} (p : A → bool) (l : list A) (i : Z) : Z :=
  match l with
  | [] => -1
  | x :: l' => if p x then i else findIndex_from p l' (i + 1)
  end.
Definition findIndex {A} (p : A → bool) (l : list A) : Z := findIndex_from p l 0.

(** [l.splice(start, 1)], as the array it leaves in [l]: a negative [start]
    counts from the end, and nothing is removed past the end. *)
Definition splice1 {A} (start : Z) (l : list A) : list A :=
  let from := if start <? 0 then Z.max 0 (Z.of_nat (length l) + start) else start in
  delete (Z.to_nat from) l.

(** [l.includes(x)] *)
Definition includes (x : ObjectId) (l : list ObjectId) : bool :=
  existsb (Nat.eqb x) l.

(** [visit.id === id] for an element of [bookedVisits] and a route
    parameter: only an object whose [id] property is that very string passes.
    A property missing from an object, or read off a string, number, boolean
    or array, is [undefined]. *)
Definition visit_id_is (id : string) (visit : JsonValue) : bool :=
  match visit with
  | JObject fields =>
      match fields !! "id"%string with
      | Some (Some (JString s)) => String.eqb s id
      | _ => false
      end
  | _ => false
  end.

(** The object literal [{ id, date }]. *)
Definition visit_record (id : string) (date : Json) : JsonValue :=
  JObject (<["id"%string := Some (JString id)]> (<["date"%string := date]> ∅)).

(** ** The client: [prisma.user] and [prisma.residency] *)

(** [data] of [prisma.user.create]: the request body of [/register]. *)
Record UserCreateInput : Type := mkUserCreateInput {
  uc_email : string;
  uc_name : option string;
  uc_image : option string;
  uc_bookedVisits : list JsonValue;
  uc_favResidenciesID : list ObjectId
}.

(** [data] of [prisma.user.update], as the handlers write it. *)
Inductive UserUpdateInput : Type :=
| bookedVisits_push (visit : JsonValue)
| bookedVisits_set (visits : list JsonValue)
| favResidenciesID_set (ids : list ObjectId)
| favResidenciesID_push (rid : ObjectId).

(** A record with one column replaced. *)
Definition set_bookedVisits (u : User.t) (visits : list JsonValue) : User.t :=
  User.mk (User.id u) (User.name u) (User.image u)
          visits (User.favResidenciesID u).
Definition set_favResidenciesID (u : User.t) (ids : list ObjectId) : User.t :=
  User.mk (User.id u) (User.name u) (User.image u)
          (User.bookedVisits u) ids.

Definition apply_update (d : UserUpdateInput) (u : User.t) : User.t :=
  match d with
  | bookedVisits_push visit =>
      set_bookedVisits u (User.bookedVisits u ++ [visit])
  | bookedVisits_set visits => set_bookedVisits u visits
  | favResidenciesID_set ids => set_favResidenciesID u ids
  | favResidenciesID_push rid =>
      set_favResidenciesID u (User.favResidenciesID u ++ [rid])
  end.

(** The database with the record under [email] written. *)
Definition with_user (s : Store) (email : string) (user : User.t) : Store :=
  {| users := <[email := user]> (users s);
     residencies := residencies s;
     next_oid := next_oid s |}.

(** [prisma.user.findUnique({ where: { email } })]; [None] is [null]. *)
Definition user_findUnique (email : string) : Prisma (option User.t) :=
  λ s, (inr (users s !! email), s).

(** [prisma.user.create({ data })]: the unique index on [email] rejects a
    second record with [P2002]. *)
Definition user_create (data : UserCreateInput) : Prisma User.t :=
  λ s, match users s !! uc_email data with
       | Some _ => (inl (Raised (PrismaKnown "P2002")), s)
       | None =>
           let user := User.mk (next_oid s) (uc_name data) (uc_image data)
                               (uc_bookedVisits data) (uc_favResidenciesID data) in
           (inr user,
            {| users := <[uc_email data := user]> (users s);
               residencies := residencies s;
               next_oid := S (next_oid s) |})
       end.

(** [prisma.user.update({ where: { email }, data })]: [P2025] when no record
    has that email. *)
Definition user_update (email : string) (data : UserUpdateInput) : Prisma User.t :=
  λ s, match users s !! email with
       | None => (inl (Raised (PrismaKnown "P2025")), s)
       | Some u =>
           let user := apply_update data u in
           (inr user, with_user s email user)
       end.

(** [data] of [prisma.residency.create], with [owner_connect] the email of
    [owner: { connect: { email } }]. *)
Record ResidencyCreateInput : Type := mkResidencyCreateInput {
  rc_title : string;
  rc_description : string;
  rc_price : Z;
  rc_address : string;
  rc_country : string;
  rc_city : string;
  rc_image : string;
  rc_facilities : JsonValue;
  owner_connect : string
}.

(** [@@unique(fields: [address, userEmail])]: does a stored record already
    hold this pair? *)
Definition address_owner_taken (address userEmail : string)
    (rs : list Residency.t) : bool :=
  existsb (λ r, String.eqb (Residency.address r) address
                && String.eqb (Residency.userEmail r) userEmail) rs.

(** [prisma.residency.create({ data })] at clock reading [now]: the owner to
    connect must exist ([P2025] otherwise), the unique index on
    (address, userEmail) rejects a second record with [P2002], and a new
    record gets a fresh identifier and both timestamps set to [now]. *)
Definition residency_create (data : ResidencyCreateInput) (now : Z)
    : Prisma Residency.t :=
  λ s, match users s !! owner_connect data with
       | None => (inl (Raised (PrismaKnown "P2025")), s)
       | Some _ =>
           if address_owner_taken (rc_address data) (owner_connect data)
                                  (residencies s)
           then (inl (Raised (PrismaKnown "P2002")), s)
           else
             let residency :=
               Residency.mk (next_oid s) (rc_title data) (rc_description data)
                            (rc_price data) (rc_address data) (rc_city data)
                            (rc_country data) (rc_image data)
                            (rc_facilities data) (owner_connect data) now now in
             (inr residency,
              {| users := users s;
                 residencies := residencies s ++ [residency];
                 next_oid := S (next_oid s) |})
       end.

(** Ordering by [createdAt: "desc"]: [r] goes in front of the first record
    that is not newer than it, so records created at the same instant keep
    their insertion order. *)
Fixpoint insert_desc (r : Residency.t) (rs : list Residency.t)
    : list Residency.t :=
  match rs with
  | [] => [r]
  | r' :: rs' =>
      if Residency.createdAt r' <=? Residency.createdAt r
      then r :: r' :: rs'
      else r' :: insert_desc r rs'
  end.

Definition sort_createdAt_desc (rs : list Residency.t) : list Residency.t :=
  foldr insert_desc [] rs.

(** [prisma.residency.findMany({ orderBy: { createdAt: "desc" } })] *)
Definition residency_findMany_createdAt_desc : Prisma (list Residency.t) :=
  λ s, (inr (sort_createdAt_desc (residencies s)), s).

(** [prisma.residency.findUnique({ where: { id } })]; [None] is [null]. *)
Definition residency_findUnique (id : ObjectId) : Prisma (option Residency.t) :=
  λ s, (inr (find (λ r, Nat.eqb (Residency.id r) id) (residencies s)), s).

(** ** Handlers of [userCntrl.js] *)

Definition createUser (body : UserCreateInput) : Store → Outcome * Store :=
  asyncHandler (
    let email := uc_email body in
    let* userExists := user_findUnique email in
    match userExists with
    | None =>
        let* user := user_create body in
        ret (send (MessageUser "User registered successfully" email user))
    | Some _ =>
        ret (status_send 201 (MessageOnly "User already registered"))
    end).

Definition bookVisit (email : string) (date : Json) (id : string)
    : Store → Outcome * Store :=
  asyncHandler (
    try_catch (
      let* alreadyBooked := user_findUnique email in
      let* bookedVisits := read alreadyBooked "bookedVisits" User.bookedVisits in
      if some (λ visit, visit_id_is id visit) bookedVisits then
        ret (status_send 400 (MessageOnly "This residency is already booked by you"))
      else
        let* _ := user_update email (bookedVisits_push (visit_record id date)) in
        ret (send (Text "Your visit is booked successfully")))
    (λ err, throw (Error (message err)))).

Definition getAllBookings (email : string) : Store → Outcome * Store :=
  asyncHandler (
    try_catch (
      let* bookings := user_findUnique email in
      ret (status_send 200 (BookingsOrNull (User.bookedVisits <$> bookings))))
    (λ err, throw (Error (message err)))).

Definition cancelBooking (email : string) (id : string)
    : Store → Outcome * Store :=
  asyncHandler (
    try_catch (
      let* user := user_findUnique email in
      let* bookedVisits := read user "bookedVisits" User.bookedVisits in
      let index := findIndex (λ visit, visit_id_is id visit) bookedVisits in
      if index =? -1 then
        ret (status_send 404 (MessageOnly "Booking not found"))
      else
        let bookedVisits := splice1 index bookedVisits in
        let* _ := user_update email (bookedVisits_set bookedVisits) in
        ret (send (Text "Booking cancelled successfully")))
    (λ err, throw (Error (message err)))).

Definition toFav (email : string) (rid : ObjectId) : Store → Outcome * Store :=
  asyncHandler (
    try_catch (
      let* user := user_findUnique email in
      let* favResidenciesID := read user "favResidenciesID" User.favResidenciesID in
      if includes rid favResidenciesID then
        let* updateUser :=
          user_update email
            (favResidenciesID_set (filter (λ id, id ≠ rid) favResidenciesID)) in
        ret (send (MessageUser "Removed from favorites" email updateUser))
      else
        let* updateUser := user_update email (favResidenciesID_push rid) in
        ret (send (MessageUser "Updated favorites" email updateUser)))
    (λ err, throw (Error (message err)))).

Definition getAllFavorites (email : string) : Store → Outcome * Store :=
  asyncHandler (
    try_catch (
      let* favResd := user_findUnique email in
      ret (status_send 200 (FavoritesOrNull (User.favResidenciesID <$> favResd))))
    (λ err, throw (Error (message err)))).

(** ** Handlers of [resdCntrl.js] *)

Definition createResidency (data : ResidencyCreateInput) (now : Z)
    : Store → Outcome * Store :=
  asyncHandler (
    try_catch (
      let* residency := residency_create data now in
      ret (send (MessageResidency "Residency created successfully" residency)))
    (λ err,
       if code_is "P2002" err then
         throw (Error (Literal "A residency with this address already exists"))
       else throw (Error (message err)))).

Definition getAllResidencies : Store → Outcome * Store :=
  asyncHandler (
    try_catch (
      let* residencies := residency_findMany_createdAt_desc in
      ret (send (ResidencyList residencies)))
    (λ err,
       ret (status_send 500 (MessageError "Failed to fetch residencies" (message err))))).

Definition getResidency (id : ObjectId) : Store → Outcome * Store :=
  asyncHandler (
    try_catch (
      let* residency := residency_findUnique id in
      ret (send (ResidencyOrNull residency)))
    (λ err, throw (Error (message err)))).

(** ** Requests: the route tables of [userRoute.js] and [residencyRoute.js] *)

Inductive Request : Type :=
| register (body : UserCreateInput)
| bookVisit_req (email : string) (date : Json) (id : string)
| allBookings (email : string)
| removeBooking (email : string) (id : string)
| toFav_req (email : string) (rid : ObjectId)
| allFav (email : string)
| create (data : ResidencyCreateInput) (now : Z)
| allresd
| residency_by_id (id : ObjectId).

Definition handle (req : Request) : Store → Outcome * Store :=
  match req with
  | register body => createUser body
  | bookVisit_req email date id => bookVisit email date id
  | allBookings email => getAllBookings email
  | removeBooking email id => cancelBooking email id
  | toFav_req email rid => toFav email rid
  | allFav email => getAllFavorites email
  | create data now => createResidency data now
  | allresd => getAllResidencies
  | residency_by_id id => getResidency id
  end.

(** The states the server can be in: those reached from the empty database
    by serving requests one after another. *)
Inductive reachable : Store → Prop :=
| reachable_empty : reachable empty_store
| reachable_step s req : reachable s → reachable (handle req s).2.

(** ** Notions used to state the properties *)

(** The listing identifier a booking record carries: the string under its
    [id] property.  Anything else stored in [bookedVisits] carries none. *)
Definition visit_id (visit : JsonValue) : option string :=
  match visit with
  | JObject fields =>
      match fields !! "id"%string with
      | Some (Some (JString s)) => Some s
      | _ => None
      end
  | _ => None
  end.

(** The listing identifiers of a booking list, in order. *)
Definition visit_ids (visits : list JsonValue) : list string :=
  omap visit_id visits.


(** [createResidency] answered with the new record [r] and left [s']. *)
Definition created (data : ResidencyCreateInput) (now : Z) (s : Store)
    (r : Residency.t) (s' : Store) : Prop :=
  createResidency data now s =
    (Responded (send (MessageResidency "Residency created successfully" r)), s').

(** Most recent first. *)
Definition newer_first (a b : Residency.t) : Prop :=
  Residency.createdAt b ≤ Residency.createdAt a.

(** The pair the composite unique index of [Residency] is declared on. *)
Definition address_owner (r : Residency.t) : string * string :=
  (Residency.address r, Residency.userEmail r).

(** What the database guarantees of the residency collection: every owner is
    a stored user, identifiers were handed out in the past and to one record
    each, and no two records share address and owner. *)
Record consistent (s : Store) : Prop := mkConsistent {
  owners_stored :
    ∀ r, r ∈ residencies s → is_Some (users s !! Residency.userEmail r);
  oids_handed_out :
    ∀ r, r ∈ residencies s → (Residency.id r < next_oid s)%nat;
  oids_distinct : NoDup (Residency.id <$> residencies s);
  address_owner_distinct : NoDup (address_owner <$> residencies s)
}.


(** The email a request of [userRoute.js] is about. *)
Definition subject (req : Request) : option string :=
  match req with
  | register body => Some (uc_email body)
  | bookVisit_req email _ _ | allBookings email | removeBooking email _
  | toFav_req email _ | allFav email => Some email
  | create _ _ | allresd | residency_by_id _ => None
  end.

(** ** A small database to run the handlers on *)

Module Sample.
Definition alice_email : string := "alice@example.com".
Definition bob_email : string := "bob@example.com".

Definition visit_r1 : JsonValue :=
  visit_record "r1" (Some (JString "2024-05-01")).
Definition visit_r2 : JsonValue :=
  visit_record "r2" (Some (JString "2024-05-02")).

(** Alice has booked two listings and has listing 7 among her favourites. *)
Definition alice : User.t :=
  User.mk 0%nat (Some "Alice"%string) None [visit_r1; visit_r2] [7%nat].

Definition alice_body : UserCreateInput :=
  mkUserCreateInput alice_email (Some "Alice"%string) None
                    [visit_r1; visit_r2] [7%nat].
Definition bob_body : UserCreateInput :=
  mkUserCreateInput bob_email None None [] [].

(** The database after Alice registered. *)
Definition registered : Store := (createUser alice_body empty_store).2.

Definition listing (address : string) : ResidencyCreateInput :=
  mkResidencyCreateInput "Villa" "By the sea" 100 address "Portugal" "Faro"
                         "villa.png" (JObject ∅) alice_email.

Definition residency (id : ObjectId) (address : string) (now : Z)
    : Residency.t :=
  Residency.mk id "Villa" "By the sea" 100 address "Faro" "Portugal"
               "villa.png" (JObject ∅) alice_email now now.

(** The database after Alice listed three residencies, at times 10, 20
    and 30. *)
Definition listed1 : Store := (createResidency (listing "1 Shore Rd") 10 registered).2.
Definition listed2 : Store := (createResidency (listing "2 Shore Rd") 20 listed1).2.
Definition listed3 : Store := (createResidency (listing "3 Shore Rd") 30 listed2).2.
End Sample.

(** ** Array methods *)

Lemma visit_id_is_true id visit :
  visit_id_is id visit = true ↔ visit_id visit = Some id.
Proof.
  unfold visit_id_is, visit_id.
  destruct visit as [| | |fields|]; try (split; discriminate).
  destruct (fields !! "id"%string) as [[[s| | | |]|]|]; try (split; discriminate).
  rewrite String.eqb_eq. split; congruence.
Qed.

Lemma visit_id_is_false id visit :
  visit_id_is id visit = false ↔ visit_id visit ≠ Some id.
Proof.
  rewrite <- visit_id_is_true. destruct (visit_id_is id visit); split; congruence.
Qed.

Lemma some_true id visits :
  some (λ visit, visit_id_is id visit) visits = true ↔
  ∃ visit, visit ∈ visits ∧ visit_id visit = Some id.
Proof.
  unfold some. rewrite existsb_exists.
  split; intros (visit & Hin & Hid); exists visit;
    (split; [by apply list_elem_of_In | by apply visit_id_is_true]).
Qed.

Lemma some_false id visits :
  some (λ visit, visit_id_is id visit) visits = false ↔
  ∀ visit, visit ∈ visits → visit_id visit ≠ Some id.
Proof.
  split.
  - intros Hsome visit Hin Hid.
    assert (some (λ visit, visit_id_is id visit) visits = true) as Htrue
      by (apply some_true; eauto).
    congruence.
  - intros Hall. apply not_true_is_false. intros Htrue.
    apply some_true in Htrue as (visit & Hin & Hid). by apply (Hall visit).
Qed.

Lemma visit_id_record id date : visit_id (visit_record id date) = Some id.
Proof. unfold visit_id, visit_record. by rewrite lookup_insert_eq. Qed.

Lemma elem_of_visit_ids id visits :
  id ∈ visit_ids visits ↔ ∃ visit, visit ∈ visits ∧ visit_id visit = Some id.
Proof. unfold visit_ids. apply list_elem_of_omap. Qed.

Lemma findIndex_from_none {A} (p : A → bool) l i :
  0 ≤ i → findIndex_from p l i = -1 ↔ ∀ x, x ∈ l → p x = false.
Proof.
  revert i. induction l as [|x l IH]; intros i Hi; cbn.
  - split; [intros _ x Hx; by apply elem_of_nil in Hx | done].
  - destruct (p x) eqn:Hpx.
    + split; [lia |]. intros Hall. specialize (Hall x). rewrite Hpx in Hall.
      exfalso. by discriminate Hall; left.
    + rewrite IH by lia. split.
      * intros Hall y Hy. apply elem_of_cons in Hy as [->|Hy]; auto.
      * intros Hall y Hy. apply Hall. by right.
Qed.

Lemma findIndex_from_found {A} (p : A → bool) l i :
  0 ≤ i → findIndex_from p l i ≠ -1 →
  ∃ (n : nat) x, findIndex_from p l i = i + Z.of_nat n
    ∧ l !! n = Some x ∧ p x = true
    ∧ ∀ (j : nat) y, (j < n)%nat → l !! j = Some y → p y = false.
Proof.
  revert i. induction l as [|x l IH]; intros i Hi; cbn; [done |].
  destruct (p x) eqn:Hpx.
  - intros _. exists 0%nat, x. split; [lia |]. split; [done |]. split; [done |].
    intros j y Hj. lia.
  - intros Hne. destruct (IH (i + 1)) as (n & y & Hn & Hy & Hpy & Hbefore);
      [lia | done |].
    exists (S n), y. split; [lia |]. split; [done |]. split; [done |].
    intros [|j] z Hj Hz; cbn in Hz; [congruence |]. apply (Hbefore j); [lia | done].
Qed.

Lemma findIndex_none {A} (p : A → bool) l :
  findIndex p l = -1 ↔ ∀ x, x ∈ l → p x = false.
Proof. apply findIndex_from_none. lia. Qed.

Lemma findIndex_found {A} (p : A → bool) l :
  findIndex p l ≠ -1 →
  ∃ (n : nat) x, findIndex p l = Z.of_nat n
    ∧ l !! n = Some x ∧ p x = true
    ∧ ∀ (j : nat) y, (j < n)%nat → l !! j = Some y → p y = false.
Proof.
  intros Hne. destruct (findIndex_from_found p l 0) as (n & x & Hn & H);
    [lia | done |].
  exists n, x. split; [| done]. unfold findIndex. lia.
Qed.

Lemma splice1_found {A} (n : nat) (l : list A) :
  splice1 (Z.of_nat n) l = delete n l.
Proof.
  unfold splice1. destruct (Z.ltb_spec (Z.of_nat n) 0); [lia |].
  by rewrite Nat2Z.id.
Qed.

Lemma includes_true rid ids : includes rid ids = true ↔ rid ∈ ids.
Proof.
  unfold includes. rewrite existsb_exists. split.
  - intros (x & Hin & Heq). apply Nat.eqb_eq in Heq as ->.
    by apply list_elem_of_In.
  - intros Hin. exists rid. split; [by apply list_elem_of_In | apply Nat.eqb_refl].
Qed.

Lemma includes_false rid ids : includes rid ids = false ↔ rid ∉ ids.
Proof.
  rewrite <- includes_true. destruct (includes rid ids); split; congruence.
Qed.

(** ** Listing identifiers of a booking list *)

Lemma visit_ids_delete id visits (n : nat) visit :
  visits !! n = Some visit → visit_id visit = Some id →
  ∃ before after,
    visit_ids visits = before ++ id :: after
    ∧ visit_ids (delete n visits) = before ++ after.
Proof.
  intros Hn Hid. exists (visit_ids (take n visits)), (visit_ids (drop (S n) visits)).
  split.
  - rewrite <- (take_drop_middle visits n visit Hn) at 1.
    unfold visit_ids. rewrite omap_app. cbn. by rewrite Hid.
  - rewrite delete_take_drop. unfold visit_ids. by rewrite omap_app.
Qed.

Lemma delete_keeps_distinct visits (n : nat) :
  NoDup (visit_ids visits) → NoDup (visit_ids (delete n visits)).
Proof.
  intros Hnd. destruct (visits !! n) as [visit|] eqn:Hn.
  - destruct (visit_id visit) as [id|] eqn:Hid.
    + destruct (visit_ids_delete id visits n visit Hn Hid)
        as (before & after & Hall & Hdel).
      rewrite Hdel. rewrite Hall in Hnd.
      apply NoDup_app in Hnd as (Hb & Hsep & Ha).
      apply NoDup_cons in Ha as [_ Ha].
      apply NoDup_app. repeat split; [done | | done].
      intros x Hx Hxa. apply (Hsep x Hx). by right.
    + replace (visit_ids (delete n visits)) with (visit_ids visits); [done |].
      rewrite <- (take_drop_middle visits n visit Hn) at 1.
      rewrite delete_take_drop. unfold visit_ids. rewrite !omap_app. cbn.
      by rewrite Hid.
  - apply lookup_ge_None in Hn.
    replace (delete n visits) with visits; [done |].
    rewrite delete_take_drop, take_ge, drop_ge by lia. by rewrite app_nil_r.
Qed.

Lemma delete_removes_distinct id visits (n : nat) visit :
  NoDup (visit_ids visits) →
  visits !! n = Some visit → visit_id visit = Some id →
  ∀ visit', visit' ∈ delete n visits → visit_id visit' ≠ Some id.
Proof.
  intros Hnd Hn Hid visit' Hin' Hid'.
  destruct (visit_ids_delete id visits n visit Hn Hid)
    as (before & after & Hall & Hdel).
  rewrite Hall in Hnd.
  apply NoDup_app in Hnd as (_ & Hsep & Ha).
  apply NoDup_cons in Ha as [Hnotafter _].
  assert (id ∈ visit_ids (delete n visits)) as Hmem
    by (apply elem_of_visit_ids; eauto).
  rewrite Hdel in Hmem. apply elem_of_app in Hmem as [Hb|Ha]; [| done].
  apply (Hsep id Hb). by left.
Qed.

Lemma push_keeps_distinct visits id date :
  (∀ visit, visit ∈ visits → visit_id visit ≠ Some id) →
  NoDup (visit_ids visits) →
  NoDup (visit_ids (visits ++ [visit_record id date])).
Proof.
  intros Hnone Hnd. unfold visit_ids. rewrite omap_app.
  cbn -[visit_id visit_record]. rewrite visit_id_record.
  apply NoDup_app. repeat split; [done | | apply NoDup_singleton].
  intros x Hx Hxid. apply list_elem_of_singleton in Hxid as ->.
  apply elem_of_visit_ids in Hx as (visit & Hin & Hid). by apply (Hnone visit).
Qed.

(** ** Running a handler *)

Ltac run_handler :=
  unfold createUser, bookVisit, getAllBookings, cancelBooking, toFav,
    getAllFavorites, createResidency, getAllResidencies, getResidency,
    asyncHandler, try_catch, bind, read, ret, throw,
    user_findUnique, user_create, user_update, residency_create,
    residency_findMany_createdAt_desc, residency_findUnique;
  cbn beta iota zeta.

(** ** A stored user: booking, cancelling, favourites *)

Section StoredUser.

Variables (s : Store) (email : string) (u : User.t).
Hypothesis stored : users s !! email = Some u.

(** What the three writing handlers come to once the lookup has found [u]. *)
Lemma bookVisit_stored date id :
  bookVisit email date id s =
    if some (λ visit, visit_id_is id visit) (User.bookedVisits u)
    then (Responded (status_send 400
            (MessageOnly "This residency is already booked by you")), s)
    else (Responded (send (Text "Your visit is booked successfully")),
          with_user s email
            (set_bookedVisits u (User.bookedVisits u ++ [visit_record id date]))).
Proof.
  run_handler. rewrite stored. cbn beta iota.
  destruct (some _ _); [done |]. by rewrite stored.
Qed.

Lemma cancelBooking_stored id :
  cancelBooking email id s =
    let index := findIndex (λ visit, visit_id_is id visit) (User.bookedVisits u) in
    if index =? -1
    then (Responded (status_send 404 (MessageOnly "Booking not found")), s)
    else (Responded (send (Text "Booking cancelled successfully")),
          with_user s email
            (set_bookedVisits u (splice1 index (User.bookedVisits u)))).
Proof.
  run_handler. rewrite stored. cbn beta iota.
  destruct (_ =? _); [done |]. by rewrite stored.
Qed.

Lemma toFav_stored rid :
  toFav email rid s =
    if includes rid (User.favResidenciesID u)
    then
      let updateUser :=
        set_favResidenciesID u
          (filter (λ id, id ≠ rid) (User.favResidenciesID u)) in
      (Responded (send (MessageUser "Removed from favorites" email updateUser)),
       with_user s email updateUser)
    else
      let updateUser :=
        set_favResidenciesID u (User.favResidenciesID u ++ [rid]) in
      (Responded (send (MessageUser "Updated favorites" email updateUser)),
       with_user s email updateUser).
Proof.
  run_handler. rewrite stored. cbn beta iota.
  destruct (includes _ _); by rewrite stored.
Qed.

(** C1: when the user's booking list already holds a record whose listing
    identifier is the requested one, [bookVisit] answers with the 400
    "already booked" message instead of throwing, and the store, and with it
    the booking list and its length, is left as it was. *)
Theorem bookVisit_duplicate_rejected date id visit :
  visit ∈ User.bookedVisits u →
  visit_id visit = Some id →
  bookVisit email date id s =
    (Responded (status_send 400
       (MessageOnly "This residency is already booked by you")), s)
  ∧ (length ∘ User.bookedVisits) <$> users (bookVisit email date id s).2 !! email
    = Some (length (User.bookedVisits u)).
Proof.
  intros Hin Hid. rewrite bookVisit_stored.
  replace (some _ _) with true by (symmetry; apply some_true; eauto).
  split; [done |]. cbn. by rewrite stored.
Qed.


Lemma cancelBooking_miss id :
  (∀ visit, visit ∈ User.bookedVisits u → visit_id visit ≠ Some id) →
  cancelBooking email id s
    = (Responded (status_send 404 (MessageOnly "Booking not found")), s).
Proof.
  intros Hnone. rewrite cancelBooking_stored. cbn zeta.
  replace (findIndex _ _) with (-1); [done |].
  symmetry. apply findIndex_none.
  intros visit Hin. apply visit_id_is_false. by apply Hnone.
Qed.

Lemma cancelBooking_hit id :
  (∃ visit, visit ∈ User.bookedVisits u ∧ visit_id visit = Some id) →
  ∃ (n : nat) visit,
    User.bookedVisits u !! n = Some visit ∧ visit_id visit = Some id
    ∧ (∀ (j : nat) earlier, (j < n)%nat →
         User.bookedVisits u !! j = Some earlier → visit_id earlier ≠ Some id)
    ∧ cancelBooking email id s
      = (Responded (send (Text "Booking cancelled successfully")),
         with_user s email
           (set_bookedVisits u (delete n (User.bookedVisits u)))).
Proof.
  intros (visit0 & Hin0 & Hid0).
  set (p := λ visit, visit_id_is id visit).
  assert (findIndex p (User.bookedVisits u) ≠ -1) as Hne.
  { intros Hidx. rewrite findIndex_none in Hidx.
    specialize (Hidx visit0 Hin0). by apply visit_id_is_false in Hidx. }
  destruct (findIndex_found p (User.bookedVisits u) Hne)
    as (n & visit & Hn & Hlook & Hp & Hbefore).
  exists n, visit. split; [done |]. split; [by apply visit_id_is_true |].
  split.
  - intros j earlier Hj Hearlier. apply visit_id_is_false. by apply (Hbefore j).
  - rewrite cancelBooking_stored. cbn zeta. fold p. rewrite Hn.
    destruct (Z.eqb_spec (Z.of_nat n) (-1)); [lia |].
    by rewrite splice1_found.
Qed.

(** C6: for a stored user, [cancelBooking] answers 404 "Booking not found"
    exactly when no record of the booking list has the requested listing
    identifier, and then leaves the store as it was; otherwise it stores the
    list without the entry at the first matching index and reports success,
    and if the listing identifiers of the list were pairwise distinct a
    following [getAllBookings] shows no record with that identifier. *)
Theorem cancelBooking_spec id :
  ((cancelBooking email id s).1
     = Responded (status_send 404 (MessageOnly "Booking not found"))
   ↔ ∀ visit, visit ∈ User.bookedVisits u → visit_id visit ≠ Some id)
  ∧ ((∀ visit, visit ∈ User.bookedVisits u → visit_id visit ≠ Some id) →
     cancelBooking email id s
       = (Responded (status_send 404 (MessageOnly "Booking not found")), s))
  ∧ ((∃ visit, visit ∈ User.bookedVisits u ∧ visit_id visit = Some id) →
     ∃ (n : nat) visit,
       User.bookedVisits u !! n = Some visit ∧ visit_id visit = Some id
       ∧ (∀ (j : nat) earlier, (j < n)%nat →
            User.bookedVisits u !! j = Some earlier → visit_id earlier ≠ Some id)
       ∧ cancelBooking email id s
         = (Responded (send (Text "Booking cancelled successfully")),
            with_user s email
              (set_bookedVisits u (delete n (User.bookedVisits u))))
       ∧ (NoDup (visit_ids (User.bookedVisits u)) →
          ∃ remaining,
            getAllBookings email (cancelBooking email id s).2
              = (Responded (status_send 200 (BookingsOrNull (Some remaining))),
                 (cancelBooking email id s).2)
            ∧ remaining = delete n (User.bookedVisits u)
            ∧ ∀ visit', visit' ∈ remaining → visit_id visit' ≠ Some id)).
Proof.
  split; [| split; [apply cancelBooking_miss |]].
  - split; [| intros Hnone; by rewrite cancelBooking_miss].
    intros Hout visit Hin Hid.
    destruct (cancelBooking_hit id) as (n & v & _ & _ & _ & Hrun); [eauto |].
    rewrite Hrun in Hout. discriminate Hout.
  - intros Hex.
    destruct (cancelBooking_hit id Hex) as (n & visit & Hlook & Hid & Hbefore & Hrun).
    exists n, visit. repeat split; try done.
    intros Hnd. exists (delete n (User.bookedVisits u)).
    rewrite Hrun. repeat split.
    + run_handler. cbn. by rewrite lookup_insert_eq.
    + by apply (delete_removes_distinct id _ n visit).
Qed.


End StoredUser.


(** ** An email nobody registered *)

Section UnknownUser.

Variables (s : Store) (email : string).
Hypothesis unknown : users s !! email = None.

Lemma bookVisit_unknown date id :
  bookVisit email date id s
    = (Failed (Error (FaultText (NullRead "bookedVisits"))), s).
Proof. run_handler. by rewrite unknown. Qed.

Lemma cancelBooking_unknown id :
  cancelBooking email id s
    = (Failed (Error (FaultText (NullRead "bookedVisits"))), s).
Proof. run_handler. by rewrite unknown. Qed.

Lemma toFav_unknown rid :
  toFav email rid s
    = (Failed (Error (FaultText (NullRead "favResidenciesID"))), s).
Proof. run_handler. by rewrite unknown. Qed.

(** C10: for an email under which no user is stored, [bookVisit],
    [cancelBooking] and [toFav] read a property of the [null] lookup result;
    the exception is rethrown as a generic error carrying its message and
    handed to the framework's error reporting, no 404 or other response is
    sent by the handler, and the store is left as it was. *)
Theorem unknown_user_generic_failure date id rid :
  bookVisit email date id s
    = (Failed (Error (FaultText (NullRead "bookedVisits"))), s)
  ∧ cancelBooking email id s
    = (Failed (Error (FaultText (NullRead "bookedVisits"))), s)
  ∧ toFav email rid s
    = (Failed (Error (FaultText (NullRead "favResidenciesID"))), s)
  ∧ ∀ r, (bookVisit email date id s).1 ≠ Responded r
         ∧ (cancelBooking email id s).1 ≠ Responded r
         ∧ (toFav email rid s).1 ≠ Responded r.
Proof.
  rewrite bookVisit_unknown, cancelBooking_unknown, toFav_unknown.
  repeat split; discriminate.
Qed.

End UnknownUser.

(** ** Registration *)

(** C4: [createUser] for an email that already has a record answers 201
    "User already registered" and leaves the store as it was; for an email
    without a record it stores exactly one new record, under that email, and
    keeps every other one. *)
Theorem createUser_idempotent s body :
  (∀ u, users s !! uc_email body = Some u →
     createUser body s
       = (Responded (status_send 201 (MessageOnly "User already registered")), s))
  ∧ (users s !! uc_email body = None →
     ∃ user,
       createUser body s
         = (Responded (send (MessageUser "User registered successfully"
                               (uc_email body) user)),
            {| users := <[uc_email body := user]> (users s);
               residencies := residencies s;
               next_oid := S (next_oid s) |})
       ∧ size (users (createUser body s).2) = S (size (users s))
       ∧ ∀ email, email ≠ uc_email body →
           users (createUser body s).2 !! email = users s !! email).
Proof.
  split.
  - intros u Hu. run_handler. by rewrite Hu.
  - intros Hu.
    set (user := User.mk (next_oid s) (uc_name body) (uc_image body)
                         (uc_bookedVisits body) (uc_favResidenciesID body)).
    assert (createUser body s
      = (Responded (send (MessageUser "User registered successfully"
                            (uc_email body) user)),
         {| users := <[uc_email body := user]> (users s);
            residencies := residencies s;
            next_oid := S (next_oid s) |})) as Hrun
      by (run_handler; rewrite Hu; cbn beta iota; by rewrite Hu).
    exists user. rewrite Hrun. cbn. split; [done |]. split.
    + by apply map_size_insert_None.
    + intros email Hne. by rewrite lookup_insert_ne.
Qed.

(** ** Distinct listing identifiers in a booking list *)

(** C8: whatever request is served (booking, cancelling, toggling a
    favourite, any read, and the others as well), a stored user whose
    booking list has pairwise distinct listing identifiers is still stored
    afterwards with a booking list that has pairwise distinct listing
    identifiers. *)
Theorem distinct_bookings_preserved req s email u :
  users s !! email = Some u →
  NoDup (visit_ids (User.bookedVisits u)) →
  ∃ u', users (handle req s).2 !! email = Some u'
    ∧ NoDup (visit_ids (User.bookedVisits u')).
Proof.
  intros Hu Hnd.
  assert (∀ e v, (e = email → NoDup (visit_ids (User.bookedVisits v))) →
     ∃ u', <[e := v]> (users s) !! email = Some u'
       ∧ NoDup (visit_ids (User.bookedVisits u'))) as Hins.
  { intros e v Hv. destruct (decide (e = email)) as [->|Hne].
    - rewrite lookup_insert_eq. eauto.
    - rewrite lookup_insert_ne by done. eauto. }
  destruct req as [body|e date id|e|e id|e rid|e| data now | |id]; cbn [handle].
  - run_handler.
    destruct (users s !! uc_email body) as [u0|] eqn:H0; cbn beta iota; [eauto |].
    rewrite H0. cbn. apply Hins. intros Heq. rewrite Heq in H0. congruence.
  - destruct (users s !! e) as [u0|] eqn:H0;
      [| rewrite bookVisit_unknown by done; eauto].
    rewrite (bookVisit_stored s e u0 H0).
    destruct (some _ _) eqn:Hsome; cbn; [eauto |].
    apply Hins. intros ->. cbn. assert (u0 = u) as -> by congruence.
    apply push_keeps_distinct; [by apply some_false | done].
  - run_handler. cbn. eauto.
  - destruct (users s !! e) as [u0|] eqn:H0;
      [| rewrite cancelBooking_unknown by done; eauto].
    rewrite (cancelBooking_stored s e u0 H0). cbn zeta.
    destruct (Z.eqb_spec (findIndex (λ visit, visit_id_is id visit)
                            (User.bookedVisits u0)) (-1)) as [Heq|Hne];
      cbn; [eauto |].
    apply Hins. intros ->. cbn. assert (u0 = u) as -> by congruence.
    destruct (findIndex_found _ _ Hne) as (n & x & -> & _).
    rewrite splice1_found. by apply delete_keeps_distinct.
  - destruct (users s !! e) as [u0|] eqn:H0;
      [| rewrite toFav_unknown by done; eauto].
    rewrite (toFav_stored s e u0 H0).
    destruct (includes _ _); cbn; apply Hins; intros ->; cbn;
      by assert (u0 = u) as -> by congruence.
  - run_handler. cbn. eauto.
  - run_handler.
    destruct (users s !! owner_connect data); cbn beta iota; [| eauto].
    destruct (address_owner_taken _ _ _); cbn; eauto.
  - run_handler. cbn. eauto.
  - run_handler. cbn. eauto.
Qed.

(** ** The residency collection *)

Lemma address_owner_taken_true address userEmail rs :
  address_owner_taken address userEmail rs = true ↔
  (address, userEmail) ∈ address_owner <$> rs.
Proof.
  unfold address_owner_taken. rewrite existsb_exists, list_elem_of_fmap.
  split.
  - intros (r & Hin & Heq). apply andb_true_iff in Heq as [Ha Ho].
    apply String.eqb_eq in Ha, Ho. exists r.
    split; [unfold address_owner; congruence | by apply list_elem_of_In].
  - intros (r & Heq & Hin). exists r. split; [by apply list_elem_of_In |].
    unfold address_owner in Heq. injection Heq as -> ->.
    by rewrite !String.eqb_refl.
Qed.

Lemma consistent_empty : consistent empty_store.
Proof.
  split; cbn.
  - intros r Hr. by apply elem_of_nil in Hr.
  - intros r Hr. by apply elem_of_nil in Hr.
  - constructor.
  - constructor.
Qed.

(** A request either keeps the residency collection, or is a [create] that
    appends one record for a stored owner and a free (address, owner) pair
    under the next identifier; no request removes a user. *)
Lemma handle_frame req s :
  (∀ e, is_Some (users s !! e) → is_Some (users (handle req s).2 !! e))
  ∧ ((residencies (handle req s).2 = residencies s
      ∧ (next_oid s ≤ next_oid (handle req s).2)%nat)
     ∨ ∃ r, residencies (handle req s).2 = residencies s ++ [r]
         ∧ next_oid (handle req s).2 = S (next_oid s)
         ∧ Residency.id r = next_oid s
         ∧ is_Some (users s !! Residency.userEmail r)
         ∧ address_owner r ∉ address_owner <$> residencies s).
Proof.
  assert (∀ e0 v e, is_Some (users s !! e) →
            is_Some (<[e0 := v]> (users s) !! e)) as Hins.
  { intros e0 v e He. destruct (decide (e0 = e)) as [->|Hne].
    - rewrite lookup_insert_eq. eauto.
    - by rewrite lookup_insert_ne. }
  destruct req as [body|e date id|e|e id|e rid|e| data now | |id];
    cbn [handle]; run_handler.
  - destruct (users s !! uc_email body) as [u0|] eqn:H0; cbn beta iota.
    + cbn. split; [done | left; split; [done | lia]].
    + rewrite H0. cbn. split; [apply Hins | left; split; [done | lia]].
  - destruct (users s !! e) as [u0|] eqn:H0; cbn beta iota;
      [| cbn; split; [done | left; split; [done | lia]]].
    destruct (some _ _); cbn beta iota;
      [cbn; split; [done | left; split; [done | lia]] |].
    rewrite H0. cbn. split; [apply Hins | left; split; [done | lia]].
  - cbn. split; [done | left; split; [done | lia]].
  - destruct (users s !! e) as [u0|] eqn:H0; cbn beta iota;
      [| cbn; split; [done | left; split; [done | lia]]].
    destruct (_ =? _); cbn beta iota;
      [cbn; split; [done | left; split; [done | lia]] |].
    rewrite H0. cbn. split; [apply Hins | left; split; [done | lia]].
  - destruct (users s !! e) as [u0|] eqn:H0; cbn beta iota;
      [| cbn; split; [done | left; split; [done | lia]]].
    destruct (includes _ _); rewrite H0; cbn;
      (split; [apply Hins | left; split; [done | lia]]).
  - cbn. split; [done | left; split; [done | lia]].
  - destruct (users s !! owner_connect data) as [u0|] eqn:H0; cbn beta iota.
    + destruct (address_owner_taken _ _ _) eqn:Htaken; cbn.
      * split; [done | left; split; [done | lia]].
      * split; [done |]. right. eexists. split; [done |].
        split; [done |]. split; [done |]. cbn. split; [by rewrite H0 |].
        intros Hin. apply address_owner_taken_true in Hin. cbn in Hin. congruence.
    + cbn. split; [done | left; split; [done | lia]].
  - cbn. split; [done | left; split; [done | lia]].
  - cbn. split; [done | left; split; [done | lia]].
Qed.

Lemma handle_consistent req s : consistent s → consistent (handle req s).2.
Proof.
  intros [Hown Hold Hids Hpairs].
  destruct (handle_frame req s) as [Hkeep [[Hrs Hnext]|(r & Hrs & Hnext & Hid & Howner & Hfree)]].
  - split; rewrite Hrs; try done.
    + intros r Hr. apply Hkeep. by apply Hown.
    + intros r Hr. specialize (Hold r Hr). lia.
  - split; rewrite Hrs.
    + intros r' Hr'. apply Hkeep. apply elem_of_app in Hr' as [Hr'|Hr'].
      * by apply Hown.
      * by apply list_elem_of_singleton in Hr' as ->.
    + intros r' Hr'. rewrite Hnext. apply elem_of_app in Hr' as [Hr'|Hr'].
      * specialize (Hold r' Hr'). lia.
      * apply list_elem_of_singleton in Hr' as ->. lia.
    + rewrite fmap_app. apply NoDup_app. repeat split; [done | | apply NoDup_singleton].
      intros i Hi Hi'. apply list_elem_of_singleton in Hi' as ->.
      apply list_elem_of_fmap in Hi as (r' & Heq & Hr').
      specialize (Hold r' Hr'). lia.
    + rewrite fmap_app. apply NoDup_app. repeat split; [done | | apply NoDup_singleton].
      intros i Hi Hi'. apply list_elem_of_singleton in Hi' as ->. done.
Qed.

Lemma reachable_consistent s : reachable s → consistent s.
Proof.
  induction 1 as [|s req _ IH]; [apply consistent_empty | by apply handle_consistent].
Qed.

Lemma find_by_id (rs : list Residency.t) r :
  r ∈ rs →
  (∀ r', r' ∈ rs → Residency.id r' = Residency.id r → r' = r) →
  find (λ r', Nat.eqb (Residency.id r') (Residency.id r)) rs = Some r.
Proof.
  induction rs as [|x rs IH]; intros Hin Hsingle; [by apply elem_of_nil in Hin |].
  cbn. destruct (Nat.eqb_spec (Residency.id x) (Residency.id r)) as [Heq|Hne].
  - f_equal. apply Hsingle; [by left | done].
  - apply IH.
    + apply elem_of_cons in Hin as [->|Hin]; [done | done].
    + intros r' Hr'. apply Hsingle. by right.
Qed.

Lemma find_by_id_none (rs : list Residency.t) id :
  (∀ r, r ∈ rs → Residency.id r ≠ id) →
  find (λ r, Nat.eqb (Residency.id r) id) rs = None.
Proof.
  induction rs as [|x rs IH]; intros Hnone; [done |].
  cbn. destruct (Nat.eqb_spec (Residency.id x) id) as [Heq|Hne].
  - exfalso. apply (Hnone x); [by left | done].
  - apply IH. intros r Hr. apply Hnone. by right.
Qed.

Lemma distinct_oids_single (rs : list Residency.t) r r' :
  NoDup (Residency.id <$> rs) → r ∈ rs → r' ∈ rs →
  Residency.id r' = Residency.id r → r' = r.
Proof.
  induction rs as [|x rs IH]; intros Hnd Hr Hr' Heq; [by apply elem_of_nil in Hr |].
  rewrite fmap_cons in Hnd. apply NoDup_cons in Hnd as [Hx Hnd].
  apply elem_of_cons in Hr as [->|Hr]; apply elem_of_cons in Hr' as [->|Hr'].
  - done.
  - exfalso. apply Hx. rewrite <- Heq. apply list_elem_of_fmap. eauto.
  - exfalso. apply Hx. rewrite Heq. apply list_elem_of_fmap. eauto.
  - by apply IH.
Qed.

Lemma getResidency_found s r :
  r ∈ residencies s →
  (∀ r', r' ∈ residencies s → Residency.id r' = Residency.id r → r' = r) →
  getResidency (Residency.id r) s
    = (Responded (send (ResidencyOrNull (Some r))), s).
Proof. intros Hin Hsingle. run_handler. by rewrite find_by_id. Qed.

(** C9: [getResidency] answers with the one stored record that has the
    requested identifier when there is one (and in a state the server can
    reach a stored record is the only one with its identifier), and with
    [null], a plain 200 with nothing in it and no exception, when no stored
    record has it; the store is left as it was either way. *)
Theorem getResidency_spec s id :
  (∀ r, r ∈ residencies s → Residency.id r = id →
     (∀ r', r' ∈ residencies s → Residency.id r' = id → r' = r) →
     getResidency id s = (Responded (send (ResidencyOrNull (Some r))), s))
  ∧ (reachable s →
     ∀ r, r ∈ residencies s → Residency.id r = id →
       getResidency id s = (Responded (send (ResidencyOrNull (Some r))), s))
  ∧ ((∀ r, r ∈ residencies s → Residency.id r ≠ id) →
     getResidency id s = (Responded (send (ResidencyOrNull None)), s)).
Proof.
  split; [| split].
  - intros r Hin <- Hsingle. by apply getResidency_found.
  - intros Hreach r Hin <-. apply getResidency_found; [done |].
    intros r' Hr' Heq.
    apply (distinct_oids_single (residencies s)); [| done | done | done].
    by destruct (reachable_consistent s Hreach).
  - intros Hnone. run_handler. by rewrite find_by_id_none.
Qed.

(** C3: in every state the server can reach, no two stored residencies
    share address and owner email; creating a residency whose address and
    owner email are those of a stored one fails with the "address already
    exists" error, stores nothing, and the stored one is still what
    [getResidency] answers for its identifier. *)
Theorem address_owner_unique s :
  reachable s →
  NoDup (address_owner <$> residencies s)
  ∧ ∀ r data now,
      r ∈ residencies s →
      Residency.address r = rc_address data →
      Residency.userEmail r = owner_connect data →
      createResidency data now s
        = (Failed (Error (Literal "A residency with this address already exists")), s)
      ∧ getResidency (Residency.id r) (createResidency data now s).2
        = (Responded (send (ResidencyOrNull (Some r))),
           (createResidency data now s).2).
Proof.
  intros Hreach. destruct (reachable_consistent s Hreach) as [Hown Hold Hids Hpairs].
  split; [done |].
  intros r data now Hin Haddr Howner.
  assert (createResidency data now s
    = (Failed (Error (Literal "A residency with this address already exists")), s))
    as Hrun.
  { run_handler. destruct (Hown r Hin) as [u Hu]. rewrite Howner in Hu.
    rewrite Hu. cbn beta iota.
    replace (address_owner_taken _ _ _) with true; [done |].
    symmetry. apply address_owner_taken_true. apply list_elem_of_fmap.
    exists r. split; [unfold address_owner; congruence | done]. }
  split; [done |]. rewrite Hrun. cbn [snd].
  apply getResidency_found; [done |].
  intros r' Hr' Heq. by apply (distinct_oids_single (residencies s)).
Qed.

(** ** Listing residencies *)

Lemma insert_desc_Permutation r rs : insert_desc r rs ≡ₚ r :: rs.
Proof.
  induction rs as [|x rs IH]; cbn; [done |].
  destruct (Residency.createdAt x <=? Residency.createdAt r); [done |].
  rewrite IH. apply Permutation_swap.
Qed.

Lemma sort_createdAt_desc_Permutation rs : sort_createdAt_desc rs ≡ₚ rs.
Proof.
  induction rs as [|x rs IH]; cbn; [done |].
  rewrite insert_desc_Permutation. by rewrite IH.
Qed.

Lemma insert_desc_sorted r rs :
  StronglySorted newer_first rs → StronglySorted newer_first (insert_desc r rs).
Proof.
  induction 1 as [|x rs Hrs IH Hx]; cbn; [repeat constructor |].
  destruct (Z.leb_spec (Residency.createdAt x) (Residency.createdAt r)) as [Hlt|Hge].
  - constructor; [by constructor |]. constructor; [unfold newer_first; lia |].
    eapply Forall_impl; [exact Hx |]. unfold newer_first. intros y Hy. cbn in Hy. lia.
  - constructor; [done |]. rewrite insert_desc_Permutation.
    constructor; [unfold newer_first; lia | done].
Qed.

Lemma sort_createdAt_desc_sorted rs :
  StronglySorted newer_first (sort_createdAt_desc rs).
Proof.
  induction rs as [|x rs IH]; cbn; [constructor | by apply insert_desc_sorted].
Qed.

Lemma sort_createdAt_desc_newest rs r :
  (∀ r', r' ∈ rs → Residency.createdAt r' < Residency.createdAt r) →
  sort_createdAt_desc (rs ++ [r]) = r :: sort_createdAt_desc rs.
Proof.
  unfold sort_createdAt_desc. rewrite foldr_app. cbn.
  induction rs as [|x rs IH]; intros Holder; cbn; [done |].
  rewrite IH by (intros r' Hr'; apply Holder; by right). cbn.
  destruct (Z.leb_spec (Residency.createdAt r) (Residency.createdAt x)) as [Hlt|Hge];
    [| done].
  assert (Residency.createdAt x < Residency.createdAt r) by (apply Holder; by left).
  lia.
Qed.

Lemma created_appends data now s r s' :
  created data now s r s' →
  residencies s' = residencies s ++ [r] ∧ Residency.createdAt r = now.
Proof.
  unfold created. run_handler.
  destruct (users s !! owner_connect data); cbn beta iota; [| discriminate].
  destruct (address_owner_taken _ _ _); cbn; [discriminate |].
  intros Heq. injection Heq as <- <-. done.
Qed.

Lemma getAllResidencies_run s :
  getAllResidencies s
    = (Responded (send (ResidencyList (sort_createdAt_desc (residencies s)))), s).
Proof. by run_handler. Qed.

(** C7: [getAllResidencies] answers with all stored residencies and nothing
    else, most recently created first, and with the empty list when none is
    stored; three residencies created one after another, at increasing
    times later than those of the records stored before, come back ahead of
    the older ones in reverse order of creation. *)
Theorem getAllResidencies_spec :
  (∀ s, ∃ rs,
     getAllResidencies s = (Responded (send (ResidencyList rs)), s)
     ∧ rs ≡ₚ residencies s
     ∧ StronglySorted newer_first rs)
  ∧ (∀ s, residencies s = [] →
       getAllResidencies s = (Responded (send (ResidencyList [])), s))
  ∧ (∀ s0 d1 t1 r1 s1 d2 t2 r2 s2 d3 t3 r3 s3,
       created d1 t1 s0 r1 s1 →
       created d2 t2 s1 r2 s2 →
       created d3 t3 s2 r3 s3 →
       (∀ r, r ∈ residencies s0 → Residency.createdAt r < t1) →
       t1 < t2 → t2 < t3 →
       ∃ older,
         getAllResidencies s0 = (Responded (send (ResidencyList older)), s0)
         ∧ getAllResidencies s3
           = (Responded (send (ResidencyList (r3 :: r2 :: r1 :: older))), s3)).
Proof.
  split; [| split].
  - intros s. exists (sort_createdAt_desc (residencies s)).
    split; [apply getAllResidencies_run |].
    split; [apply sort_createdAt_desc_Permutation | apply sort_createdAt_desc_sorted].
  - intros s Hnil. rewrite getAllResidencies_run. by rewrite Hnil.
  - intros s0 d1 t1 r1 s1 d2 t2 r2 s2 d3 t3 r3 s3 H1 H2 H3 Holder Ht12 Ht23.
    apply created_appends in H1 as [Hs1 Hr1].
    apply created_appends in H2 as [Hs2 Hr2].
    apply created_appends in H3 as [Hs3 Hr3].
    exists (sort_createdAt_desc (residencies s0)).
    split; [apply getAllResidencies_run |].
    rewrite getAllResidencies_run, Hs3, Hs2, Hs1.
    rewrite !sort_createdAt_desc_newest; [done | | |].
    + intros r Hr. specialize (Holder r Hr). lia.
    + intros r Hr. apply elem_of_app in Hr as [Hr|Hr].
      * specialize (Holder r Hr). lia.
      * apply list_elem_of_singleton in Hr as ->. lia.
    + intros r Hr. apply elem_of_app in Hr as [Hr|Hr];
        [apply elem_of_app in Hr as [Hr|Hr] |].
      * specialize (Holder r Hr). lia.
      * apply list_elem_of_singleton in Hr as ->. lia.
      * apply list_elem_of_singleton in Hr as ->. lia.
Qed.

(** ** The handlers on the sample database *)

Section Runs.
Import Sample.

Example registered_users : users registered !! alice_email = Some alice.
Proof. reflexivity. Qed.

Example listed3_residencies :
  residencies listed3
    = [residency 1 "1 Shore Rd" 10; residency 2 "2 Shore Rd" 20;
       residency 3 "3 Shore Rd" 30].
Proof. reflexivity. Qed.

Example allresd_listed3 :
  (getAllResidencies listed3).1
    = Responded (send (ResidencyList
        [residency 3 "3 Shore Rd" 30; residency 2 "2 Shore Rd" 20;
         residency 1 "1 Shore Rd" 10])).
Proof. reflexivity. Qed.

Example book_then_list :
  (getAllBookings alice_email (bookVisit alice_email None "r3" registered).2).1
    = Responded (status_send 200 (BookingsOrNull
        (Some [visit_r1; visit_r2; visit_record "r3" None]))).
Proof. reflexivity. Qed.

Example cancel_first :
  (getAllBookings alice_email (cancelBooking alice_email "r1" registered).2).1
    = Responded (status_send 200 (BookingsOrNull (Some [visit_r2]))).
Proof. reflexivity. Qed.

Example toggle_moves_to_the_end :
  User.favResidenciesID <$>
    users (toFav alice_email 7 (toFav alice_email 7
            (toFav alice_email 8 registered).2).2).2 !! alice_email
    = Some [8%nat; 7%nat].
Proof. reflexivity. Qed.

Example listings_unknown_user :
  (getAllBookings bob_email registered).1
    = Responded (status_send 200 (BookingsOrNull None)).
Proof. reflexivity. Qed.
End Runs.

(** ** The properties at work on the sample database *)

Ltac each_visit Hin :=
  repeat (apply elem_of_cons in Hin as [->|Hin]; [discriminate |]);
  by apply elem_of_nil in Hin.

Lemma bookVisit_duplicate_rejected_witness :
  users Sample.registered !! Sample.alice_email = Some Sample.alice
  ∧ Sample.visit_r2 ∈ User.bookedVisits Sample.alice
  ∧ visit_id Sample.visit_r2 = Some "r2"%string
  ∧ bookVisit Sample.alice_email None "r2" Sample.registered
    = (Responded (status_send 400
         (MessageOnly "This residency is already booked by you")),
       Sample.registered)
  ∧ (length ∘ User.bookedVisits) <$>
      users (bookVisit Sample.alice_email None "r2" Sample.registered).2
        !! Sample.alice_email
    = Some 2%nat.
Proof.
  assert (Sample.visit_r2 ∈ User.bookedVisits Sample.alice) as Hin
    by (right; left).
  split; [reflexivity |]. split; [exact Hin |]. split; [reflexivity |].
  exact (bookVisit_duplicate_rejected Sample.registered Sample.alice_email
           Sample.alice eq_refl None "r2" Sample.visit_r2 Hin eq_refl).
Defined.


Lemma unknown_user_generic_failure_witness :
  users Sample.registered !! Sample.bob_email = None
  ∧ bookVisit Sample.bob_email None "r1" Sample.registered
    = (Failed (Error (FaultText (NullRead "bookedVisits"))), Sample.registered)
  ∧ cancelBooking Sample.bob_email "r1" Sample.registered
    = (Failed (Error (FaultText (NullRead "bookedVisits"))), Sample.registered)
  ∧ toFav Sample.bob_email 7 Sample.registered
    = (Failed (Error (FaultText (NullRead "favResidenciesID"))), Sample.registered)
  ∧ ∀ r, (bookVisit Sample.bob_email None "r1" Sample.registered).1 ≠ Responded r
         ∧ (cancelBooking Sample.bob_email "r1" Sample.registered).1 ≠ Responded r
         ∧ (toFav Sample.bob_email 7 Sample.registered).1 ≠ Responded r.
Proof.
  split; [reflexivity |].
  exact (unknown_user_generic_failure Sample.registered Sample.bob_email eq_refl
           None "r1" 7).
Defined.

Lemma cancelBooking_spec_witness :
  users Sample.registered !! Sample.alice_email = Some Sample.alice
  ∧ (∀ visit, visit ∈ User.bookedVisits Sample.alice →
       visit_id visit ≠ Some "r9"%string)
  ∧ cancelBooking Sample.alice_email "r9" Sample.registered
    = (Responded (status_send 404 (MessageOnly "Booking not found")),
       Sample.registered)
  ∧ (∃ visit, visit ∈ User.bookedVisits Sample.alice
       ∧ visit_id visit = Some "r2"%string)
  ∧ NoDup (visit_ids (User.bookedVisits Sample.alice))
  ∧ ∃ (n : nat) remaining,
      cancelBooking Sample.alice_email "r2" Sample.registered
        = (Responded (send (Text "Booking cancelled successfully")),
           with_user Sample.registered Sample.alice_email
             (set_bookedVisits Sample.alice
                (delete n (User.bookedVisits Sample.alice))))
      ∧ getAllBookings Sample.alice_email
          (cancelBooking Sample.alice_email "r2" Sample.registered).2
        = (Responded (status_send 200 (BookingsOrNull (Some remaining))),
           (cancelBooking Sample.alice_email "r2" Sample.registered).2)
      ∧ ∀ visit', visit' ∈ remaining → visit_id visit' ≠ Some "r2"%string.
Proof.
  assert (∀ visit, visit ∈ User.bookedVisits Sample.alice →
            visit_id visit ≠ Some "r9"%string) as Hnone
    by (intros visit Hin; each_visit Hin).
  assert (∃ visit, visit ∈ User.bookedVisits Sample.alice
            ∧ visit_id visit = Some "r2"%string) as Hsome
    by (exists Sample.visit_r2; split; [right; left | reflexivity]).
  assert (NoDup (visit_ids (User.bookedVisits Sample.alice))) as Hnd.
  { apply NoDup_cons. split; [| apply NoDup_singleton].
    intros Hin. apply list_elem_of_singleton in Hin. discriminate Hin. }
  split; [reflexivity |]. split; [exact Hnone |].
  split.
  { exact (proj1 (proj2 (cancelBooking_spec Sample.registered Sample.alice_email
                           Sample.alice eq_refl "r9")) Hnone). }
  split; [exact Hsome |]. split; [exact Hnd |].
  destruct (proj2 (proj2 (cancelBooking_spec Sample.registered Sample.alice_email
                            Sample.alice eq_refl "r2")) Hsome)
    as (n & visit & _ & _ & _ & Hrun & Hlist).
  destruct (Hlist Hnd) as (remaining & Hget & _ & Hgone).
  exists n, remaining. split; [exact Hrun |]. split; [exact Hget | exact Hgone].
Defined.


Lemma createUser_idempotent_witness :
  users Sample.registered !! uc_email Sample.alice_body = Some Sample.alice
  ∧ createUser Sample.alice_body Sample.registered
    = (Responded (status_send 201 (MessageOnly "User already registered")),
       Sample.registered)
  ∧ users Sample.registered !! uc_email Sample.bob_body = None
  ∧ size (users (createUser Sample.bob_body Sample.registered).2)
    = S (size (users Sample.registered)).
Proof.
  split; [reflexivity |].
  split.
  { exact (proj1 (createUser_idempotent Sample.registered Sample.alice_body)
             Sample.alice eq_refl). }
  split; [reflexivity |].
  destruct (proj2 (createUser_idempotent Sample.registered Sample.bob_body) eq_refl)
    as (user & _ & Hsize & _).
  exact Hsize.
Defined.

Lemma distinct_bookings_preserved_witness :
  users Sample.registered !! Sample.alice_email = Some Sample.alice
  ∧ NoDup (visit_ids (User.bookedVisits Sample.alice))
  ∧ ∃ u', users (handle (bookVisit_req Sample.alice_email None "r3")
                   Sample.registered).2 !! Sample.alice_email = Some u'
      ∧ NoDup (visit_ids (User.bookedVisits u')).
Proof.
  assert (NoDup (visit_ids (User.bookedVisits Sample.alice))) as Hnd.
  { apply NoDup_cons. split; [| apply NoDup_singleton].
    intros Hin. apply list_elem_of_singleton in Hin. discriminate Hin. }
  split; [reflexivity |]. split; [exact Hnd |].
  exact (distinct_bookings_preserved
           (bookVisit_req Sample.alice_email None "r3")
           Sample.registered Sample.alice_email Sample.alice eq_refl Hnd).
Defined.

Lemma getResidency_spec_witness :
  Sample.residency 2 "2 Shore Rd" 20 ∈ residencies Sample.listed3
  ∧ (∀ r', r' ∈ residencies Sample.listed3 → Residency.id r' = 2%nat →
       r' = Sample.residency 2 "2 Shore Rd" 20)
  ∧ reachable Sample.listed3
  ∧ getResidency 2 Sample.listed3
    = (Responded (send (ResidencyOrNull
         (Some (Sample.residency 2 "2 Shore Rd" 20)))), Sample.listed3)
  ∧ (∀ r, r ∈ residencies Sample.listed3 → Residency.id r ≠ 9%nat)
  ∧ getResidency 9 Sample.listed3
    = (Responded (send (ResidencyOrNull None)), Sample.listed3).
Proof.
  assert (Sample.residency 2 "2 Shore Rd" 20 ∈ residencies Sample.listed3) as Hin
    by (right; left).
  assert (∀ r', r' ∈ residencies Sample.listed3 → Residency.id r' = 2%nat →
            r' = Sample.residency 2 "2 Shore Rd" 20) as Hsingle.
  { intros r' Hr' Hid.
    apply elem_of_cons in Hr' as [->|Hr']; [discriminate Hid |].
    apply elem_of_cons in Hr' as [->|Hr']; [reflexivity |].
    apply elem_of_cons in Hr' as [->|Hr']; [discriminate Hid |].
    by apply elem_of_nil in Hr'. }
  assert (∀ r, r ∈ residencies Sample.listed3 → Residency.id r ≠ 9%nat) as Hnone.
  { intros r Hr.
    repeat (apply elem_of_cons in Hr as [->|Hr]; [discriminate |]).
    by apply elem_of_nil in Hr. }
  assert (reachable Sample.listed3) as Hreach.
  { apply (reachable_step _ (create (Sample.listing "3 Shore Rd") 30)).
    apply (reachable_step _ (create (Sample.listing "2 Shore Rd") 20)).
    apply (reachable_step _ (create (Sample.listing "1 Shore Rd") 10)).
    apply (reachable_step _ (register Sample.alice_body)).
    apply reachable_empty. }
  split; [exact Hin |]. split; [exact Hsingle |]. split; [exact Hreach |].
  split.
  { exact (proj1 (proj2 (getResidency_spec Sample.listed3 2)) Hreach
             (Sample.residency 2 "2 Shore Rd" 20) Hin eq_refl). }
  split; [exact Hnone |].
  exact (proj2 (proj2 (getResidency_spec Sample.listed3 9)) Hnone).
Defined.

Lemma address_owner_unique_witness :
  reachable Sample.listed3
  ∧ Sample.residency 2 "2 Shore Rd" 20 ∈ residencies Sample.listed3
  ∧ NoDup (address_owner <$> residencies Sample.listed3)
  ∧ createResidency (Sample.listing "2 Shore Rd") 40 Sample.listed3
    = (Failed (Error (Literal "A residency with this address already exists")),
       Sample.listed3)
  ∧ getResidency 2
      (createResidency (Sample.listing "2 Shore Rd") 40 Sample.listed3).2
    = (Responded (send (ResidencyOrNull
         (Some (Sample.residency 2 "2 Shore Rd" 20)))),
       (createResidency (Sample.listing "2 Shore Rd") 40 Sample.listed3).2).
Proof.
  assert (reachable Sample.listed3) as Hreach.
  { apply (reachable_step _ (create (Sample.listing "3 Shore Rd") 30)).
    apply (reachable_step _ (create (Sample.listing "2 Shore Rd") 20)).
    apply (reachable_step _ (create (Sample.listing "1 Shore Rd") 10)).
    apply (reachable_step _ (register Sample.alice_body)).
    apply reachable_empty. }
  assert (Sample.residency 2 "2 Shore Rd" 20 ∈ residencies Sample.listed3) as Hin
    by (right; left).
  split; [exact Hreach |]. split; [exact Hin |].
  destruct (address_owner_unique Sample.listed3 Hreach) as [Hnd Hdup].
  split; [exact Hnd |].
  exact (Hdup (Sample.residency 2 "2 Shore Rd" 20) (Sample.listing "2 Shore Rd")
           40 Hin eq_refl eq_refl).
Defined.

Lemma getAllResidencies_spec_witness :
  created (Sample.listing "1 Shore Rd") 10 Sample.registered
          (Sample.residency 1 "1 Shore Rd" 10) Sample.listed1
  ∧ created (Sample.listing "2 Shore Rd") 20 Sample.listed1
            (Sample.residency 2 "2 Shore Rd" 20) Sample.listed2
  ∧ created (Sample.listing "3 Shore Rd") 30 Sample.listed2
            (Sample.residency 3 "3 Shore Rd" 30) Sample.listed3
  ∧ (∀ r, r ∈ residencies Sample.registered → Residency.createdAt r < 10)
  ∧ 10 < 20 ∧ 20 < 30
  ∧ residencies Sample.registered = []
  ∧ getAllResidencies Sample.registered
    = (Responded (send (ResidencyList [])), Sample.registered)
  ∧ ∃ older,
      getAllResidencies Sample.registered
        = (Responded (send (ResidencyList older)), Sample.registered)
      ∧ getAllResidencies Sample.listed3
        = (Responded (send (ResidencyList
             (Sample.residency 3 "3 Shore Rd" 30
              :: Sample.residency 2 "2 Shore Rd" 20
              :: Sample.residency 1 "1 Shore Rd" 10 :: older))), Sample.listed3).
Proof.
  assert (∀ r, r ∈ residencies Sample.registered → Residency.createdAt r < 10)
    as Holder by (intros r Hr; by apply elem_of_nil in Hr).
  split; [reflexivity |]. split; [reflexivity |]. split; [reflexivity |].
  split; [exact Holder |]. split; [lia |]. split; [lia |].
  split; [reflexivity |].
  split.
  { exact (proj1 (proj2 getAllResidencies_spec) Sample.registered eq_refl). }
  exact (proj2 (proj2 getAllResidencies_spec)
           Sample.registered
           (Sample.listing "1 Shore Rd") 10 (Sample.residency 1 "1 Shore Rd" 10)
           Sample.listed1
           (Sample.listing "2 Shore Rd") 20 (Sample.residency 2 "2 Shore Rd" 20)
           Sample.listed2
           (Sample.listing "3 Shore Rd") 30 (Sample.residency 3 "3 Shore Rd" 30)
           Sample.listed3
           eq_refl eq_refl eq_refl Holder ltac:(lia) ltac:(lia)).
Defined.

(** ** Further properties of the handlers *)

Lemma findIndex_from_last {A} (p : A → bool) l y i :
  (∀ x, x ∈ l → p x = false) → p y = true →
  findIndex_from p (l ++ [y]) i = i + Z.of_nat (length l).
Proof.
  revert i. induction l as [|x l IH]; intros i Hl Hy; cbn.
  - rewrite Hy. lia.
  - rewrite (Hl x) by (by left).
    rewrite IH; [lia | | done]. intros z Hz. apply Hl. by right.
Qed.

Lemma delete_last {A} (l : list A) y : delete (length l) (l ++ [y]) = l.
Proof. induction l as [|x l IH]; cbn; [done | by f_equal]. Qed.

Lemma set_bookedVisits_same u : set_bookedVisits u (User.bookedVisits u) = u.
Proof. by destruct u. Qed.

Lemma set_bookedVisits_twice u l l' :
  set_bookedVisits (set_bookedVisits u l) l' = set_bookedVisits u l'.
Proof. done. Qed.

Lemma with_user_same s email u :
  users s !! email = Some u → with_user s email u = s.
Proof.
  intros Hu. destruct s as [us rs n]. unfold with_user. cbn in *.
  f_equal. by apply insert_id.
Qed.

Lemma with_user_twice s email u u' :
  with_user (with_user s email u) email u' = with_user s email u'.
Proof. unfold with_user. cbn. f_equal. apply insert_insert_eq. Qed.

Lemma with_user_lookup s email u : users (with_user s email u) !! email = Some u.
Proof. cbn. apply lookup_insert_eq. Qed.

Lemma visit_ids_delete_first id visits (n : nat) visit :
  visits !! n = Some visit → visit_id visit = Some id →
  (∀ (j : nat) earlier, (j < n)%nat →
     visits !! j = Some earlier → visit_id earlier ≠ Some id) →
  ∃ before after,
    visit_ids visits = before ++ id :: after
    ∧ ¬ (id ∈ before)
    ∧ visit_ids (delete n visits) = before ++ after.
Proof.
  intros Hn Hid Hfirst.
  exists (visit_ids (take n visits)), (visit_ids (drop (S n) visits)).
  split; [| split].
  - rewrite <- (take_drop_middle visits n visit Hn) at 1.
    unfold visit_ids. rewrite omap_app. cbn. by rewrite Hid.
  - intros Hin. apply elem_of_visit_ids in Hin as (earlier & Hin & Hearlier).
    apply elem_of_take in Hin as (j & Hj & Hlt). by apply (Hfirst j earlier).
  - rewrite delete_take_drop. unfold visit_ids. by rewrite omap_app.
Qed.

(** X1: Booking is idempotent: whatever a first [bookVisit] did, a second one
    for the same user and listing, with any date, answers 400 and leaves the
    store as the first one left it. *)
Theorem bookVisit_twice s email u date date' id :
  users s !! email = Some u →
  bookVisit email date' id (bookVisit email date id s).2
    = (Responded (status_send 400
         (MessageOnly "This residency is already booked by you")),
       (bookVisit email date id s).2).
Proof.
  intros Hu. rewrite (bookVisit_stored s email u Hu).
  destruct (some _ _) eqn:Hsome; cbn [snd].
  - rewrite (bookVisit_stored s email u Hu). by rewrite Hsome.
  - rewrite (bookVisit_stored _ email _ (with_user_lookup s email _)).
    replace (some _ _) with true; [done |].
    symmetry. apply some_true. exists (visit_record id date).
    split; [| apply visit_id_record].
    cbn. apply elem_of_app. right. by left.
Qed.

(** X2: Booking a listing the user had not booked and cancelling it again gives
    back the store exactly as it was. *)
Theorem bookVisit_then_cancelBooking s email u date id :
  users s !! email = Some u →
  (∀ visit, visit ∈ User.bookedVisits u → visit_id visit ≠ Some id) →
  cancelBooking email id (bookVisit email date id s).2
    = (Responded (send (Text "Booking cancelled successfully")), s).
Proof.
  intros Hu Hnone. rewrite (bookVisit_stored s email u Hu).
  replace (some _ _) with false by (symmetry; by apply some_false).
  cbn [snd].
  rewrite (cancelBooking_stored _ email _ (with_user_lookup s email _)).
  cbn zeta. cbn [set_bookedVisits User.bookedVisits]. unfold findIndex.
  rewrite findIndex_from_last.
  - rewrite Z.add_0_l.
    destruct (Z.eqb_spec (Z.of_nat (length (User.bookedVisits u))) (-1)); [lia |].
    rewrite splice1_found, delete_last, with_user_twice.
    rewrite set_bookedVisits_twice, set_bookedVisits_same.
    by rewrite with_user_same.
  - intros visit Hin. apply visit_id_is_false. by apply Hnone.
  - apply visit_id_is_true, visit_id_record.
Qed.

(** X3: [cancelBooking] removes one record only, the first with the requested
    identifier: the identifiers before it and after it stay in their order
    (a later record with the same identifier stays booked), the list gets
    shorter by one and the favourites are kept. *)
Theorem cancelBooking_removes_first_only s email u id :
  users s !! email = Some u →
  (∃ visit, visit ∈ User.bookedVisits u ∧ visit_id visit = Some id) →
  ∃ before after u',
    visit_ids (User.bookedVisits u) = before ++ id :: after
    ∧ ¬ (id ∈ before)
    ∧ users (cancelBooking email id s).2 !! email = Some u'
    ∧ visit_ids (User.bookedVisits u') = before ++ after
    ∧ S (length (User.bookedVisits u')) = length (User.bookedVisits u)
    ∧ User.favResidenciesID u' = User.favResidenciesID u.
Proof.
  intros Hu Hex.
  destruct (cancelBooking_hit s email u Hu id Hex)
    as (n & visit & Hn & Hid & Hfirst & Hrun).
  destruct (visit_ids_delete_first id _ n visit Hn Hid Hfirst)
    as (before & after & Hall & Hnot & Hdel).
  exists before, after, (set_bookedVisits u (delete n (User.bookedVisits u))).
  rewrite Hrun. cbn [snd]. rewrite with_user_lookup.
  repeat split; try done.
  cbn. rewrite length_delete by eauto.
  apply lookup_lt_Some in Hn. lia.
Qed.

(** X4: With pairwise distinct listing identifiers, cancelling the same booking
    a second time answers 404 and changes nothing more. *)
Theorem cancelBooking_twice s email u id :
  users s !! email = Some u →
  NoDup (visit_ids (User.bookedVisits u)) →
  (∃ visit, visit ∈ User.bookedVisits u ∧ visit_id visit = Some id) →
  cancelBooking email id (cancelBooking email id s).2
    = (Responded (status_send 404 (MessageOnly "Booking not found")),
       (cancelBooking email id s).2).
Proof.
  intros Hu Hnd Hex.
  destruct (cancelBooking_hit s email u Hu id Hex)
    as (n & visit & Hn & Hid & _ & Hrun).
  rewrite Hrun. cbn [snd].
  apply (cancelBooking_miss _ email _ (with_user_lookup s email _)).
  cbn. by apply (delete_removes_distinct id _ n visit).
Qed.

(** What one request can do to the record of a stored user: nothing, or one
    of the four updates the handlers write. *)
Lemma handle_stored_user req s email u :
  users s !! email = Some u →
  ∃ u', users (handle req s).2 !! email = Some u'
    ∧ (u' = u
       ∨ (∃ date id,
            (∀ visit, visit ∈ User.bookedVisits u → visit_id visit ≠ Some id)
            ∧ u' = set_bookedVisits u (User.bookedVisits u ++ [visit_record id date]))
       ∨ (∃ n : nat, u' = set_bookedVisits u (delete n (User.bookedVisits u)))
       ∨ (∃ rid, u' = set_favResidenciesID u
                        (filter (λ id, id ≠ rid) (User.favResidenciesID u)))
       ∨ (∃ rid, (rid ∉ User.favResidenciesID u)
                 ∧ u' = set_favResidenciesID u (User.favResidenciesID u ++ [rid]))).
Proof.
  intros Hu.
  assert (∀ e v (P : User.t → Prop), (e = email → P v) → P u →
     ∃ u', <[e := v]> (users s) !! email = Some u' ∧ P u') as Hins.
  { intros e v P Hv HP. destruct (decide (e = email)) as [->|Hne].
    - rewrite lookup_insert_eq. eauto.
    - rewrite lookup_insert_ne by done. eauto. }
  destruct req as [body|e date id|e|e id|e rid|e| data now | |id]; cbn [handle].
  - run_handler.
    destruct (users s !! uc_email body) as [u0|] eqn:H0; cbn beta iota; [eauto |].
    rewrite H0. cbn. apply Hins; [| by left].
    intros Heq. rewrite Heq in H0. congruence.
  - destruct (users s !! e) as [u0|] eqn:H0;
      [| rewrite bookVisit_unknown by done; eauto].
    rewrite (bookVisit_stored s e u0 H0).
    destruct (some _ _) eqn:Hsome; cbn; [eauto |].
    apply Hins; [| by left]. intros ->. assert (u0 = u) as -> by congruence.
    right; left. exists date, id. split; [by apply some_false | done].
  - run_handler. cbn. eauto.
  - destruct (users s !! e) as [u0|] eqn:H0;
      [| rewrite cancelBooking_unknown by done; eauto].
    rewrite (cancelBooking_stored s e u0 H0). cbn zeta.
    destruct (Z.eqb_spec (findIndex (λ visit, visit_id_is id visit)
                            (User.bookedVisits u0)) (-1)) as [Heq|Hne];
      cbn; [eauto |].
    apply Hins; [| by left]. intros ->. assert (u0 = u) as -> by congruence.
    destruct (findIndex_found _ _ Hne) as (n & x & -> & _).
    rewrite splice1_found. right; right; left. by exists n.
  - destruct (users s !! e) as [u0|] eqn:H0;
      [| rewrite toFav_unknown by done; eauto].
    rewrite (toFav_stored s e u0 H0).
    destruct (includes _ _) eqn:Hinc; cbn; (apply Hins; [| by left]);
      intros ->; assert (u0 = u) as -> by congruence.
    + right; right; right; left. by exists rid.
    + right; right; right; right. exists rid.
      split; [by apply includes_false | done].
  - run_handler. cbn. eauto.
  - run_handler.
    destruct (users s !! owner_connect data); cbn beta iota; [| eauto].
    destruct (address_owner_taken _ _ _); cbn; eauto.
  - run_handler. cbn. eauto.
  - run_handler. cbn. eauto.
Qed.

(** X5: No request removes a user or changes who a stored user is: the record
    stays under its email with the same identifier, name and image. *)
Theorem stored_user_kept req s email u :
  users s !! email = Some u →
  ∃ u', users (handle req s).2 !! email = Some u'
    ∧ User.id u' = User.id u
    ∧ User.name u' = User.name u
    ∧ User.image u' = User.image u.
Proof.
  intros Hu. destruct (handle_stored_user req s email u Hu) as (u' & Hu' & Hcases).
  exists u'. split; [done |].
  destruct Hcases as [->|[(date & id & _ & ->)|[(n & ->)|[(rid & ->)|(rid & _ & ->)]]]];
    done.
Qed.



(** X8: A request about one email leaves the record of every other email as it
    was, and the residency requests leave every user as they were. *)
Theorem other_users_untouched req s other :
  subject req ≠ Some other →
  users (handle req s).2 !! other = users s !! other.
Proof.
  intros Hsubject.
  destruct req as [body|e date id|e|e id|e rid|e| data now | |id];
    cbn [handle subject] in *.
  - run_handler.
    destruct (users s !! uc_email body) as [u0|] eqn:H0; cbn beta iota; [done |].
    rewrite H0. cbn. apply lookup_insert_ne. congruence.
  - destruct (users s !! e) as [u0|] eqn:H0;
      [| by rewrite bookVisit_unknown].
    rewrite (bookVisit_stored s e u0 H0).
    destruct (some _ _); cbn; [done |]. apply lookup_insert_ne. congruence.
  - by run_handler.
  - destruct (users s !! e) as [u0|] eqn:H0;
      [| by rewrite cancelBooking_unknown].
    rewrite (cancelBooking_stored s e u0 H0). cbn zeta.
    destruct (_ =? _); cbn; [done |]. apply lookup_insert_ne. congruence.
  - destruct (users s !! e) as [u0|] eqn:H0;
      [| by rewrite toFav_unknown].
    rewrite (toFav_stored s e u0 H0).
    destruct (includes _ _); cbn; apply lookup_insert_ne; congruence.
  - by run_handler.
  - run_handler.
    destruct (users s !! owner_connect data); cbn beta iota; [| done].
    by destruct (address_owner_taken _ _ _).
  - by run_handler.
  - by run_handler.
Qed.



(** X11: Registering twice under one email: whatever the first call did and
    whatever the second body carries, the second call answers 201 "User
    already registered" and leaves the store as the first one left it. *)
Theorem createUser_twice s body body' :
  uc_email body' = uc_email body →
  createUser body' (createUser body s).2
    = (Responded (status_send 201 (MessageOnly "User already registered")),
       (createUser body s).2).
Proof.
  intros Hemail.
  assert (is_Some (users (createUser body s).2 !! uc_email body')) as [u Hu].
  { rewrite Hemail. run_handler.
    destruct (users s !! uc_email body) as [u0|] eqn:H0; cbn beta iota.
    - cbn. rewrite H0. eauto.
    - rewrite H0. cbn. rewrite lookup_insert_eq. eauto. }
  generalize dependent (createUser body s).2. intros s1 Hu.
  run_handler. by rewrite Hu.
Qed.

(** X12: A first registration stores the lists of the request body as they are:
    the bookings and favourites it carries are what [getAllBookings] and
    [getAllFavorites] answer next, and the new user gets the identifier the
    store had next in line. *)
Theorem createUser_stores_body s body :
  users s !! uc_email body = None →
  (getAllBookings (uc_email body) (createUser body s).2).1
    = Responded (status_send 200 (BookingsOrNull (Some (uc_bookedVisits body))))
  ∧ (getAllFavorites (uc_email body) (createUser body s).2).1
    = Responded (status_send 200
        (FavoritesOrNull (Some (uc_favResidenciesID body))))
  ∧ User.id <$> users (createUser body s).2 !! uc_email body = Some (next_oid s)
  ∧ next_oid (createUser body s).2 = S (next_oid s).
Proof.
  intros Hnone.
  assert ((createUser body s).2
    = {| users := <[uc_email body :=
            User.mk (next_oid s) (uc_name body) (uc_image body)
                    (uc_bookedVisits body) (uc_favResidenciesID body)]> (users s);
         residencies := residencies s;
         next_oid := S (next_oid s) |}) as ->
    by (run_handler; rewrite Hnone; cbn beta iota; by rewrite Hnone).
  repeat split; run_handler; cbn; by rewrite ?lookup_insert_eq.
Qed.


(** X14: In a state the server can reach, a residency just created is what
    [getResidency] answers for its identifier, it is part of what
    [getAllResidencies] answers, and every residency stored before is still
    answered for its own identifier. *)
Theorem createResidency_then_read s data now r s' :
  reachable s →
  created data now s r s' →
  getResidency (Residency.id r) s'
    = (Responded (send (ResidencyOrNull (Some r))), s')
  ∧ (∃ rs, getAllResidencies s' = (Responded (send (ResidencyList rs)), s')
           ∧ r ∈ rs)
  ∧ ∀ r0, r0 ∈ residencies s →
      getResidency (Residency.id r0) s'
        = (Responded (send (ResidencyOrNull (Some r0))), s').
Proof.
  intros Hreach Hcreated.
  assert (reachable s') as Hreach'.
  { replace s' with (handle (create data now) s).2; [by constructor |].
    cbn [handle]. unfold created in Hcreated. by rewrite Hcreated. }
  destruct (reachable_consistent s' Hreach') as [_ _ Hids _].
  apply created_appends in Hcreated as [Hrs _].
  assert (∀ x, x ∈ residencies s' →
            getResidency (Residency.id x) s'
              = (Responded (send (ResidencyOrNull (Some x))), s')) as Hget.
  { intros x Hx. apply getResidency_found; [done |].
    intros x' Hx' Heq. by apply (distinct_oids_single (residencies s')). }
  split; [| split].
  - apply Hget. rewrite Hrs. apply elem_of_app. right. by left.
  - exists (sort_createdAt_desc (residencies s')).
    split; [apply getAllResidencies_run |].
    rewrite sort_createdAt_desc_Permutation, Hrs.
    apply elem_of_app. right. by left.
  - intros r0 Hr0. apply Hget. rewrite Hrs. apply elem_of_app. by left.
Qed.

(** X15: In every state the server can reach, the owner of each stored residency
    is a registered user, and residency identifiers are pairwise distinct. *)
Theorem reachable_residencies_sound s :
  reachable s →
  (∀ r, r ∈ residencies s → is_Some (users s !! Residency.userEmail r))
  ∧ NoDup (Residency.id <$> residencies s).
Proof.
  intros Hreach. by destruct (reachable_consistent s Hreach).
Qed.


(** ** The further properties on the sample database *)

Lemma reachable_registered : reachable Sample.registered.
Proof.
  apply (reachable_step _ (register Sample.alice_body)). apply reachable_empty.
Qed.

Lemma reachable_listed2 : reachable Sample.listed2.
Proof.
  apply (reachable_step _ (create (Sample.listing "2 Shore Rd") 20)).
  apply (reachable_step _ (create (Sample.listing "1 Shore Rd") 10)).
  apply reachable_registered.
Qed.

Lemma alice_booked_r1 :
  ∃ visit, visit ∈ User.bookedVisits Sample.alice
           ∧ visit_id visit = Some "r1"%string.
Proof. exists Sample.visit_r1. split; [by left | reflexivity]. Qed.

Lemma alice_bookings_distinct : NoDup (visit_ids (User.bookedVisits Sample.alice)).
Proof.
  apply NoDup_cons. split; [| apply NoDup_singleton].
  intros Hin. apply list_elem_of_singleton in Hin. discriminate Hin.
Qed.

Lemma bookVisit_twice_witness :
  users Sample.registered !! Sample.alice_email = Some Sample.alice
  ∧ bookVisit Sample.alice_email (Some (JString "2024-07-01")) "r3"
      (bookVisit Sample.alice_email None "r3" Sample.registered).2
    = (Responded (status_send 400
         (MessageOnly "This residency is already booked by you")),
       (bookVisit Sample.alice_email None "r3" Sample.registered).2).
Proof.
  split; [reflexivity |].
  exact (bookVisit_twice Sample.registered Sample.alice_email Sample.alice
           None (Some (JString "2024-07-01")) "r3" eq_refl).
Defined.

Lemma bookVisit_then_cancelBooking_witness :
  users Sample.registered !! Sample.alice_email = Some Sample.alice
  ∧ (∀ visit, visit ∈ User.bookedVisits Sample.alice →
       visit_id visit ≠ Some "r3"%string)
  ∧ cancelBooking Sample.alice_email "r3"
      (bookVisit Sample.alice_email None "r3" Sample.registered).2
    = (Responded (send (Text "Booking cancelled successfully")),
       Sample.registered).
Proof.
  assert (∀ visit, visit ∈ User.bookedVisits Sample.alice →
            visit_id visit ≠ Some "r3"%string) as Hnone
    by (intros visit Hin; each_visit Hin).
  split; [reflexivity |]. split; [exact Hnone |].
  exact (bookVisit_then_cancelBooking Sample.registered Sample.alice_email
           Sample.alice None "r3" eq_refl Hnone).
Defined.

Lemma cancelBooking_removes_first_only_witness :
  users Sample.registered !! Sample.alice_email = Some Sample.alice
  ∧ (∃ visit, visit ∈ User.bookedVisits Sample.alice
              ∧ visit_id visit = Some "r1"%string)
  ∧ ∃ before after u',
      visit_ids (User.bookedVisits Sample.alice) = before ++ "r1"%string :: after
      ∧ ¬ ("r1"%string ∈ before)
      ∧ users (cancelBooking Sample.alice_email "r1" Sample.registered).2
          !! Sample.alice_email = Some u'
      ∧ visit_ids (User.bookedVisits u') = before ++ after
      ∧ S (length (User.bookedVisits u')) = length (User.bookedVisits Sample.alice)
      ∧ User.favResidenciesID u' = User.favResidenciesID Sample.alice.
Proof.
  split; [reflexivity |]. split; [exact alice_booked_r1 |].
  exact (cancelBooking_removes_first_only Sample.registered Sample.alice_email
           Sample.alice "r1" eq_refl alice_booked_r1).
Defined.

Lemma cancelBooking_twice_witness :
  users Sample.registered !! Sample.alice_email = Some Sample.alice
  ∧ NoDup (visit_ids (User.bookedVisits Sample.alice))
  ∧ (∃ visit, visit ∈ User.bookedVisits Sample.alice
              ∧ visit_id visit = Some "r1"%string)
  ∧ cancelBooking Sample.alice_email "r1"
      (cancelBooking Sample.alice_email "r1" Sample.registered).2
    = (Responded (status_send 404 (MessageOnly "Booking not found")),
       (cancelBooking Sample.alice_email "r1" Sample.registered).2).
Proof.
  split; [reflexivity |]. split; [exact alice_bookings_distinct |].
  split; [exact alice_booked_r1 |].
  exact (cancelBooking_twice Sample.registered Sample.alice_email Sample.alice
           "r1" eq_refl alice_bookings_distinct alice_booked_r1).
Defined.

Lemma stored_user_kept_witness :
  users Sample.registered !! Sample.alice_email = Some Sample.alice
  ∧ ∃ u', users (handle (toFav_req Sample.alice_email 8) Sample.registered).2
            !! Sample.alice_email = Some u'
      ∧ User.id u' = User.id Sample.alice
      ∧ User.name u' = User.name Sample.alice
      ∧ User.image u' = User.image Sample.alice.
Proof.
  split; [reflexivity |].
  exact (stored_user_kept (toFav_req Sample.alice_email 8) Sample.registered
           Sample.alice_email Sample.alice eq_refl).
Defined.



Lemma other_users_untouched_witness :
  subject (toFav_req Sample.bob_email 8) ≠ Some Sample.alice_email
  ∧ users (handle (toFav_req Sample.bob_email 8)
             (createUser Sample.bob_body Sample.registered).2).2
      !! Sample.alice_email
    = users (createUser Sample.bob_body Sample.registered).2 !! Sample.alice_email.
Proof.
  assert (subject (toFav_req Sample.bob_email 8) ≠ Some Sample.alice_email)
    as Hne by discriminate.
  split; [exact Hne |].
  exact (other_users_untouched (toFav_req Sample.bob_email 8)
           (createUser Sample.bob_body Sample.registered).2
           Sample.alice_email Hne).
Defined.



Lemma createUser_twice_witness :
  uc_email Sample.alice_body = uc_email Sample.alice_body
  ∧ createUser Sample.alice_body (createUser Sample.alice_body empty_store).2
    = (Responded (status_send 201 (MessageOnly "User already registered")),
       (createUser Sample.alice_body empty_store).2).
Proof.
  split; [reflexivity |].
  exact (createUser_twice empty_store Sample.alice_body Sample.alice_body eq_refl).
Defined.

Lemma createUser_stores_body_witness :
  users empty_store !! uc_email Sample.alice_body = None
  ∧ (getAllBookings Sample.alice_email (createUser Sample.alice_body empty_store).2).1
    = Responded (status_send 200
        (BookingsOrNull (Some [Sample.visit_r1; Sample.visit_r2])))
  ∧ (getAllFavorites Sample.alice_email (createUser Sample.alice_body empty_store).2).1
    = Responded (status_send 200 (FavoritesOrNull (Some [7%nat])))
  ∧ User.id <$> users (createUser Sample.alice_body empty_store).2
                  !! Sample.alice_email = Some 0%nat
  ∧ next_oid (createUser Sample.alice_body empty_store).2 = 1%nat.
Proof.
  split; [reflexivity |].
  exact (createUser_stores_body empty_store Sample.alice_body eq_refl).
Defined.


Lemma createResidency_then_read_witness :
  reachable Sample.listed2
  ∧ created (Sample.listing "3 Shore Rd") 30 Sample.listed2
            (Sample.residency 3 "3 Shore Rd" 30) Sample.listed3
  ∧ getResidency 3 Sample.listed3
    = (Responded (send (ResidencyOrNull
         (Some (Sample.residency 3 "3 Shore Rd" 30)))), Sample.listed3)
  ∧ (∃ rs, getAllResidencies Sample.listed3
             = (Responded (send (ResidencyList rs)), Sample.listed3)
           ∧ Sample.residency 3 "3 Shore Rd" 30 ∈ rs)
  ∧ ∀ r0, r0 ∈ residencies Sample.listed2 →
      getResidency (Residency.id r0) Sample.listed3
        = (Responded (send (ResidencyOrNull (Some r0))), Sample.listed3).
Proof.
  split; [exact reachable_listed2 |]. split; [reflexivity |].
  exact (createResidency_then_read Sample.listed2 (Sample.listing "3 Shore Rd")
           30 (Sample.residency 3 "3 Shore Rd" 30) Sample.listed3
           reachable_listed2 eq_refl).
Defined.

Lemma reachable_residencies_sound_witness :
  reachable Sample.listed2
  ∧ (∀ r, r ∈ residencies Sample.listed2 →
       is_Some (users Sample.listed2 !! Residency.userEmail r))
  ∧ NoDup (Residency.id <$> residencies Sample.listed2).
Proof.
  split; [exact reachable_listed2 |].
  exact (reachable_residencies_sound Sample.listed2 reachable_listed2).
Defined.
